(** * kmp_process_sys.h: the Android [__SYS_pipe2] declaration header

    The source is a C header made of preprocessor directives around one
    function declaration:

<<
    #ifndef KMP_PROCESS_SYS_H
    #define KMP_PROCESS_SYS_H

    #ifdef __ANDROID__
    int __SYS_pipe2();
    #endif

    #endif
>>

    The header is embedded shallowly: every directive is a transformer of
    the preprocessor's state (macro table, stack of open conditionals,
    emitted lines), and the header is the composition of its directives.
    Comments of the source emit nothing and are left out. *)

From stdpp Require Import gmap strings list fin_maps.

(** ** Tokens and macro tables *)

(** A preprocessing token: an identifier (keywords are identifiers to
    the preprocessor, and any identifier may name a macro) or a
    punctuator. *)
Inductive token : Type :=
  | Ident (name : string)
  | Punct (sym : string).

#[global] Instance token_eq_dec : EqDecision token.
Proof. solve_decision. Defined.

(** The macro table maps a defined name to its replacement list.
    [#define M] stores the empty list; a name absent from the table is
    not defined. Macros are object-like (a name and a replacement
    list), the kind the header's own [#define] creates; function-like
    macros are not modelled. *)
Abbreviation macro_table := (gmap string (list token)).

Definition is_defined (env : macro_table) (m : string) : bool :=
  match env !! m with
  | Some _ => true
  | None => false
  end.

(** ** Macro replacement of a text line

    An identifier that names a macro is replaced by the macro's
    replacement list, which is rescanned with that macro disabled (a
    macro is never replaced inside its own expansion). Every nested
    replacement removes one name from the table, so [size env] levels
    of nesting are all there can be; [fuel] is only the structural
    argument of the recursion.

    This is the replacement of object-like macros whose replacement
    lists are made of identifiers and punctuators. The operators [#]
    and [##] and the macros the preprocessor builds in ([__LINE__],
    [__FILE__], ...) are outside it, so nothing below is stated about
    the tokens of a line that was produced by replacing a macro, other
    than at explicit tables of this plain kind. *)
Fixpoint expand_tok (fuel : nat) (env : macro_table) (t : token) : list token :=
  match t with
  | Punct _ => [t]
  | Ident x =>
      match env !! x with
      | None => [t]
      | Some body =>
          match fuel with
          | O => [t]
          | S fuel' => flat_map (expand_tok fuel' (delete x env)) body
          end
      end
  end.

Definition expand (env : macro_table) (l : list token) : list token :=
  flat_map (expand_tok (size env) env) l.

(** ** Preprocessor state *)

(** An open conditional of the including file. *)
Inductive cond : Type :=
  | IfDef (m : string)
  | IfNDef (m : string).

#[global] Instance cond_eq_dec : EqDecision cond.
Proof. solve_decision. Defined.

Definition holds (c : cond) (env : macro_table) : bool :=
  match c with
  | IfDef m => is_defined env m
  | IfNDef m => negb (is_defined env m)
  end.

(** An emitted line: its tokens after macro replacement, and the
    conditionals that were open where the source line stands
    (innermost first). *)
Record line : Type := Line {
  guards : list cond;
  toks : list token
}.

#[global] Instance line_eq_dec : EqDecision line.
Proof. solve_decision. Defined.

Record pp_state : Type := PPState {
  macros : macro_table;
  if_stack : list cond;
  output : list line
}.

Definition directive : Type := pp_state → pp_state.

Definition seq (d1 d2 : directive) : directive := λ st, d2 (d1 st).
Infix ">>>" := seq (at level 62, right associativity).

(** [#define m body] *)
Definition define (m : string) (body : list token) : directive := λ st,
  {| macros := <[m := body]> (macros st);
     if_stack := if_stack st;
     output := output st |}.

(** A line of text (anything that is not a directive). *)
Definition text (l : list token) : directive := λ st,
  {| macros := macros st;
     if_stack := if_stack st;
     output := output st ++ [Line (if_stack st) (expand (macros st) l)] |}.

(** [#ifdef]/[#ifndef] ... [#endif]: the group is processed when the
    condition holds and skipped whole otherwise; [#endif] closes the
    conditional again. *)
Definition conditional (c : cond) (group : directive) : directive := λ st,
  if holds c (macros st) then
    let st' := group {| macros := macros st;
                        if_stack := c :: if_stack st;
                        output := output st |} in
    {| macros := macros st'; if_stack := if_stack st; output := output st' |}
  else st.

Definition ifdef (m : string) : directive → directive := conditional (IfDef m).
Definition ifndef (m : string) : directive → directive := conditional (IfNDef m).

(** ** The header *)

Definition KMP_PROCESS_SYS_H : string := "KMP_PROCESS_SYS_H".
Definition ANDROID : string := "__ANDROID__".
Definition SYS_pipe2 : string := "__SYS_pipe2".

(** [int __SYS_pipe2();] *)
Definition SYS_pipe2_decl : list token :=
  [Ident "int"; Ident SYS_pipe2; Punct "("; Punct ")"; Punct ";"].

Definition kmp_process_sys_h : directive :=
  ifndef KMP_PROCESS_SYS_H (
    define KMP_PROCESS_SYS_H [] >>>
    ifdef ANDROID (
      text SYS_pipe2_decl
    )
  ).

(** A translation unit starts with the macros of the build configuration,
    no open conditional and nothing emitted. *)
Definition start (env : macro_table) : pp_state :=
  {| macros := env; if_stack := []; output := [] |}.

(** The lines a translation unit gets from one inclusion of the header. *)
Definition preprocess (env : macro_table) : list line :=
  output (kmp_process_sys_h (start env)).

(** ** Reading the emitted interface *)

(** A function declaration without a body:
    [<return type> <name> ( <parameters> ) ;]. *)
Record prototype : Type := Prototype {
  ret_type : string;
  fn_name : string;
  params : list token
}.

#[global] Instance prototype_eq_dec : EqDecision prototype.
Proof. solve_decision. Defined.

Definition parse_prototype (l : list token) : option prototype :=
  match l with
  | Ident r :: Ident n :: Punct open :: rest =>
      match reverse rest with
      | Punct semi :: Punct close :: rps =>
          if decide (open = "(" ∧ close = ")" ∧ semi = ";")
          then Some (Prototype r n (reverse rps))
          else None
      | _ => None
      end
  | _ => None
  end.

(** The names declared by the emitted lines that are prototypes. *)
Definition declared_names (ls : list line) : list string :=
  omap (λ l, fn_name <$> parse_prototype (toks l)) ls.

(** Whether an identifier occurs anywhere in the emitted lines. *)
Definition mentions (x : string) (ls : list line) : bool :=
  existsb (λ l, bool_decide (Ident x ∈ toks l)) ls.

(** The platform identifiers whose conditional groups contributed at
    least one emitted line. The include guard is an [#ifndef] and selects
    no platform. *)
Definition platform_guards (l : line) : list string :=
  omap (λ c, match c with IfDef m => Some m | IfNDef _ => None end) (guards l).

Definition visible_platforms (ls : list line) : list string :=
  remove_dups (ls ≫= platform_guards).

(** What a function declarator that is not part of a definition says
    about the parameters. Before C23 an empty list between the
    parentheses supplies no information about their number or types
    (C11 6.7.6.3p14), and [(void)] is how a function without parameters
    is declared; from C23 on the empty list means the same as [(void)]. *)
Inductive c_standard : Type := C89 | C99 | C11 | C17 | C23.

Inductive param_spec : Type :=
  | Unspecified
  | NoParameters
  | Listed (ps : list token).

Definition parameter_spec (std : c_standard) (ps : list token) : param_spec :=
  match ps with
  | [] => match std with C23 => NoParameters | _ => Unspecified end
  | [Ident v] => if decide (v = "void") then NoParameters else Listed ps
  | _ => Listed ps
  end.

Definition declared_parameters (std : c_standard) (l : list token) : option param_spec :=
  (λ p, parameter_spec std (params p)) <$> parse_prototype l.

(** A run of [#define] lines of the including file, in order. *)
Definition defines (ds : list (string * list token)) : directive := λ st,
  foldl (λ s d, define d.1 d.2 s) st ds.

(** ** What one inclusion adds *)

(** The line [int __SYS_pipe2();] as emitted from state [st]: the
    include guard has just been defined when the line is reached. *)
Definition emitted_decl (st : pp_state) : line :=
  Line (IfDef ANDROID :: IfNDef KMP_PROCESS_SYS_H :: if_stack st)
       (expand (<[KMP_PROCESS_SYS_H := []]> (macros st)) SYS_pipe2_decl).

(** The lines one inclusion adds from state [st]: the declaration on the
    first inclusion of an Android build, nothing otherwise. *)
Definition new_lines (st : pp_state) : list line :=
  if negb (is_defined (macros st) KMP_PROCESS_SYS_H) && is_defined (macros st) ANDROID
  then [emitted_decl st] else [].

(** The emitted lines as a function of the two tested macros alone. *)
Definition lines_of (android guard : bool) : list line :=
  if negb guard && android
  then [Line [IfDef ANDROID; IfNDef KMP_PROCESS_SYS_H] SYS_pipe2_decl]
  else [].

(** ** The claims of the specification, as it words them *)

(** The exclusivity invariant as the specification words it: after
    preprocessing, the declarations of exactly one platform are visible. *)
Definition exactly_one_platform_visible (env : macro_table) : Prop :=
  length (visible_platforms (preprocess env)) = 1.

(** The signature claim as the specification words it: the declaration
    of the header gives its function a zero-argument parameter list. *)
Definition zero_argument_signature (std : c_standard) : Prop :=
  declared_parameters std SYS_pipe2_decl = Some NoParameters.

Definition agree_on (m : string) (env1 env2 : macro_table) : Prop :=
  is_defined env1 m = is_defined env2 m.

(** The determinacy claim as the specification words it: the two tested
    macros alone fix the emitted lines. *)
Definition determined_by_tested_macros : Prop :=
  ∀ env1 env2,
    agree_on ANDROID env1 env2 → agree_on KMP_PROCESS_SYS_H env1 env2 →
    preprocess env1 = preprocess env2.

(** The frame claim as the specification words it, for an inclusion from
    state [st]: every macro but the include guard keeps its definition,
    the include guard is defined afterwards (with an empty replacement
    list when this inclusion defined it), the open conditionals and the
    lines emitted so far are untouched, and what is added is at most
    one line, the declaration of [__SYS_pipe2], and only when
    [__ANDROID__] is defined. *)
Definition introduces_only_guard_and_decl (st : pp_state) : Prop :=
  (∀ m, m ≠ KMP_PROCESS_SYS_H →
        macros (kmp_process_sys_h st) !! m = macros st !! m)
  ∧ is_defined (macros (kmp_process_sys_h st)) KMP_PROCESS_SYS_H = true
  ∧ (macros st !! KMP_PROCESS_SYS_H = None →
     macros (kmp_process_sys_h st) !! KMP_PROCESS_SYS_H = Some [])
  ∧ if_stack (kmp_process_sys_h st) = if_stack st
  ∧ ∃ new, output (kmp_process_sys_h st) = output st ++ new
      ∧ length new ≤ 1
      ∧ Forall (λ l, parse_prototype (toks l)
                     = Some (Prototype "int" "__SYS_pipe2" [])) new
      ∧ (new ≠ [] → is_defined (macros st) ANDROID = true).

(** * Properties *)

Example preprocess_android :
  preprocess {[ ANDROID := [] ]} = [Line [IfDef ANDROID; IfNDef KMP_PROCESS_SYS_H] SYS_pipe2_decl].
Proof. vm_compute. reflexivity. Qed.

(** ** Macro replacement *)

Section Expansion.
Implicit Types (env : macro_table) (t : token) (l : list token).

Lemma expand_tok_not_macro f env x :
  env !! x = None → expand_tok f env (Ident x) = [Ident x].
Proof. intros Hx. destruct f; simpl; by rewrite Hx. Qed.

Lemma expand_tok_punct f env s : expand_tok f env (Punct s) = [Punct s].
Proof. by destruct f. Qed.

(** The fuel never runs out: any two amounts of at least [size env]
    give the same replacement, so [expand] is the replacement itself
    and not an approximation of it. *)
Lemma expand_tok_fuel f1 : ∀ f2 env t,
  size env ≤ f1 → size env ≤ f2 → expand_tok f1 env t = expand_tok f2 env t.
Proof.
  induction f1 as [|f1 IH]; intros f2 env [x|s] H1 H2;
    rewrite ?expand_tok_punct; try done;
    (destruct (env !! x) as [body|] eqn:Hx;
      [|by rewrite !expand_tok_not_macro]);
    assert (size env ≠ 0) by (apply (map_size_ne_0_lookup_2 _ x); eauto);
    [lia|].
  destruct f2 as [|f2]; [lia|]. simpl. rewrite Hx.
  apply flat_map_ext. intros u.
  apply IH; rewrite map_size_delete_Some by eauto; lia.
Qed.

(** The declaration line is left as written when neither of its two
    identifiers names a macro. *)
Lemma expand_decl_plain env :
  env !! "int" = None → env !! SYS_pipe2 = None →
  expand env SYS_pipe2_decl = SYS_pipe2_decl.
Proof.
  intros Hi Hp. unfold expand, SYS_pipe2_decl. simpl.
  rewrite !expand_tok_punct, !expand_tok_not_macro by done. done.
Qed.
End Expansion.

(** ** What one inclusion does, by cases on the two tested macros *)

Section Inclusion.
Implicit Types (st : pp_state) (env : macro_table).

Lemma is_defined_insert_ne env m k body :
  m ≠ k → is_defined (<[m := body]> env) k = is_defined env k.
Proof. intros Hne. unfold is_defined. by rewrite lookup_insert_ne. Qed.

Lemma is_defined_insert_eq env m body : is_defined (<[m := body]> env) m = true.
Proof. unfold is_defined. by rewrite lookup_insert_eq. Qed.

Lemma is_defined_true env m : is_defined env m = true ↔ is_Some (env !! m).
Proof. unfold is_defined. destruct (env !! m); split; (done || eauto || by intros []). Qed.

Lemma is_defined_false env m : is_defined env m = false ↔ env !! m = None.
Proof. unfold is_defined. by destruct (env !! m). Qed.

Lemma include_guarded st :
  is_defined (macros st) KMP_PROCESS_SYS_H = true → kmp_process_sys_h st = st.
Proof.
  intros Hg. unfold kmp_process_sys_h, ifndef, conditional. simpl. by rewrite Hg.
Qed.

Lemma include_first_other st :
  is_defined (macros st) KMP_PROCESS_SYS_H = false →
  is_defined (macros st) ANDROID = false →
  kmp_process_sys_h st =
    {| macros := <[KMP_PROCESS_SYS_H := []]> (macros st);
       if_stack := if_stack st;
       output := output st |}.
Proof.
  intros Hg Ha.
  unfold kmp_process_sys_h, ifndef, ifdef, conditional, seq, define. simpl.
  rewrite Hg. simpl. by rewrite is_defined_insert_ne, Ha.
Qed.

Lemma include_first_android st :
  is_defined (macros st) KMP_PROCESS_SYS_H = false →
  is_defined (macros st) ANDROID = true →
  kmp_process_sys_h st =
    {| macros := <[KMP_PROCESS_SYS_H := []]> (macros st);
       if_stack := if_stack st;
       output := output st ++ [emitted_decl st] |}.
Proof.
  intros Hg Ha.
  unfold kmp_process_sys_h, ifndef, ifdef, conditional, seq, define, text. simpl.
  rewrite Hg. simpl. by rewrite is_defined_insert_ne, Ha.
Qed.

Lemma include_output st :
  output (kmp_process_sys_h st) = output st ++ new_lines st.
Proof.
  unfold new_lines.
  destruct (is_defined (macros st) KMP_PROCESS_SYS_H) eqn:Hg; simpl.
  - rewrite include_guarded by done. by rewrite app_nil_r.
  - destruct (is_defined (macros st) ANDROID) eqn:Ha.
    + by rewrite include_first_android.
    + rewrite include_first_other by done. simpl. by rewrite app_nil_r.
Qed.

Lemma include_macros st :
  macros (kmp_process_sys_h st) =
    if is_defined (macros st) KMP_PROCESS_SYS_H then macros st
    else <[KMP_PROCESS_SYS_H := []]> (macros st).
Proof.
  destruct (is_defined (macros st) KMP_PROCESS_SYS_H) eqn:Hg.
  - by rewrite include_guarded.
  - destruct (is_defined (macros st) ANDROID) eqn:Ha.
    + by rewrite include_first_android.
    + by rewrite include_first_other.
Qed.

Lemma include_if_stack st : if_stack (kmp_process_sys_h st) = if_stack st.
Proof.
  destruct (is_defined (macros st) KMP_PROCESS_SYS_H) eqn:Hg.
  - by rewrite include_guarded.
  - destruct (is_defined (macros st) ANDROID) eqn:Ha.
    + by rewrite include_first_android.
    + by rewrite include_first_other.
Qed.

Lemma include_defines_guard st :
  is_defined (macros (kmp_process_sys_h st)) KMP_PROCESS_SYS_H = true.
Proof.
  rewrite include_macros.
  destruct (is_defined (macros st) KMP_PROCESS_SYS_H) eqn:Hg; [done|].
  apply is_defined_insert_eq.
Qed.

Lemma include_idempotent st :
  kmp_process_sys_h (kmp_process_sys_h st) = kmp_process_sys_h st.
Proof. apply include_guarded, include_defines_guard. Qed.

Lemma preprocess_eq env :
  preprocess env = new_lines (start env).
Proof. unfold preprocess. by rewrite include_output. Qed.
Lemma preprocess_plain (env : macro_table) :
  env !! "int" = None → env !! SYS_pipe2 = None →
  preprocess env = lines_of (is_defined env ANDROID) (is_defined env KMP_PROCESS_SYS_H).
Proof.
  intros Hi Hp. rewrite preprocess_eq.
  unfold new_lines, lines_of, emitted_decl, start. cbn [macros if_stack].
  destruct (_ && _); [|done].
  rewrite expand_decl_plain; [done | by rewrite lookup_insert_ne ..].
Qed.

End Inclusion.

(** ** Guard exclusivity and include-guard idempotence *)

(** C1. When [__ANDROID__] is not defined, including the header emits
    nothing: the translation unit's lines are unchanged, and the lines
    the header contributes hold no declaration of [__SYS_pipe2] and no
    occurrence of that name at all. *)
Theorem not_android_no_declaration (st : pp_state) :
  macros st !! ANDROID = None →
  output (kmp_process_sys_h st) = output st
  ∧ preprocess (macros st) = []
  ∧ declared_names (preprocess (macros st)) = []
  ∧ mentions SYS_pipe2 (preprocess (macros st)) = false.
Proof.
  intros Ha. apply is_defined_false in Ha.
  assert (Hnew : ∀ st', macros st' = macros st → new_lines st' = []).
  { intros st' E. unfold new_lines. rewrite E, Ha. by rewrite andb_false_r. }
  rewrite include_output, preprocess_eq, !Hnew by done.
  by rewrite app_nil_r.
Qed.

Lemma not_android_no_declaration_witness :
  let st := start {[ "__linux__" := [Ident "1"] ]} in
  macros st !! ANDROID = None
  ∧ output (kmp_process_sys_h st) = output st
  ∧ mentions SYS_pipe2 (preprocess (macros st)) = false.
Proof.
  cbv zeta. split; [reflexivity|].
  destruct (not_android_no_declaration (start {[ "__linux__" := [Ident "1"] ]}))
    as (H1 & _ & _ & H4); [reflexivity|].
  split; [exact H1 | exact H4].
Defined.

(** C2. On the guarded platform a second inclusion of the header in the
    same translation unit, and any further one, changes nothing: the
    state after the repeated inclusions is the state after the first,
    so the emitted lines are the same and at most one line was added
    in all. *)
Theorem include_twice_android (st : pp_state) (n : nat) :
  is_defined (macros st) ANDROID = true →
  kmp_process_sys_h (kmp_process_sys_h st) = kmp_process_sys_h st
  ∧ Nat.iter n kmp_process_sys_h (kmp_process_sys_h st) = kmp_process_sys_h st
  ∧ output (kmp_process_sys_h (kmp_process_sys_h st)) = output (kmp_process_sys_h st)
  ∧ length (output (kmp_process_sys_h (kmp_process_sys_h st))) ≤ S (length (output st)).
Proof.
  intros _. rewrite include_idempotent. split_and!; try done.
  - induction n as [|n IH]; [done|]. simpl. rewrite IH. apply include_idempotent.
  - rewrite include_output, length_app. unfold new_lines.
    destruct (_ && _); simpl; lia.
Qed.

Lemma include_twice_android_witness :
  is_defined (macros (start {[ ANDROID := [Ident "1"] ]})) ANDROID = true
  ∧ output (kmp_process_sys_h (kmp_process_sys_h (start {[ ANDROID := [Ident "1"] ]})))
    = output (kmp_process_sys_h (start {[ ANDROID := [Ident "1"] ]})).
Proof.
  split; [reflexivity|].
  apply (include_twice_android (start {[ ANDROID := [Ident "1"] ]}) 3). reflexivity.
Defined.

(** Two inclusions on Android leave exactly the one declaration. *)
Example android_included_twice :
  output (kmp_process_sys_h (kmp_process_sys_h (start {[ ANDROID := [Ident "1"] ]})))
  = [Line [IfDef ANDROID; IfNDef KMP_PROCESS_SYS_H] SYS_pipe2_decl].
Proof. vm_compute. reflexivity. Qed.

(** C8. On every platform the first inclusion defines the include guard
    [KMP_PROCESS_SYS_H], and a repeated inclusion is a no-op whether or
    not [__ANDROID__] is defined. *)
Theorem include_idempotent_everywhere (st : pp_state) :
  is_defined (macros (kmp_process_sys_h st)) KMP_PROCESS_SYS_H = true
  ∧ kmp_process_sys_h (kmp_process_sys_h st) = kmp_process_sys_h st
  ∧ output (kmp_process_sys_h (kmp_process_sys_h st)) = output (kmp_process_sys_h st).
Proof.
  split_and!.
  - apply include_defines_guard.
  - apply include_idempotent.
  - by rewrite include_idempotent.
Qed.

(** A build for another platform: the guard is defined by the first
    inclusion although nothing is emitted. *)
Example include_linux_defines_guard :
  kmp_process_sys_h (start {[ "__linux__" := [Ident "1"] ]})
  = start {[ KMP_PROCESS_SYS_H := []; "__linux__" := [Ident "1"] ]}.
Proof. by rewrite include_first_other. Qed.

(** ** The declared signature *)

(** C3, refuted as stated: compiled as C17 (as under every standard
    before C23) the empty parentheses of [int __SYS_pipe2();] leave the
    parameters unspecified; they do not declare a function of zero
    arguments. *)
Lemma zero_argument_counterexample :
  parse_prototype SYS_pipe2_decl = Some (Prototype "int" "__SYS_pipe2" [])
  ∧ declared_parameters C17 SYS_pipe2_decl = Some Unspecified
  ∧ ¬ (∀ std, zero_argument_signature std).
Proof.
  split_and!; [reflexivity | reflexivity |].
  intros H. specialize (H C17). discriminate H.
Qed.

(** C3, amended. The header's one declaration names the function
    [__SYS_pipe2], returns [int] and has nothing between its
    parentheses, which declares zero parameters from C23 on and leaves
    the parameters unspecified before; and in a build where neither
    [int] nor [__SYS_pipe2] names a macro, the header emits that
    declaration, as written and once, exactly when [__ANDROID__] is
    defined and the include guard is not, and nothing in every other
    case: the binding hangs on that one platform identifier. *)
Theorem signature_binding (std : c_standard) (env : macro_table) :
  env !! "int" = None → env !! SYS_pipe2 = None →
  parse_prototype SYS_pipe2_decl = Some (Prototype "int" "__SYS_pipe2" [])
  ∧ declared_parameters std SYS_pipe2_decl
    = Some (match std with C23 => NoParameters | _ => Unspecified end)
  ∧ toks <$> preprocess env
    = (if negb (is_defined env KMP_PROCESS_SYS_H) && is_defined env ANDROID
       then [SYS_pipe2_decl] else [])
  ∧ ((∃ l, l ∈ preprocess env)
     ↔ is_defined env ANDROID = true ∧ is_defined env KMP_PROCESS_SYS_H = false).
Proof.
  intros Hi Hp. split_and!.
  - reflexivity.
  - by destruct std.
  - rewrite preprocess_plain by done. unfold lines_of. by destruct (_ && _).
  - rewrite preprocess_plain by done. unfold lines_of.
    destruct (is_defined env KMP_PROCESS_SYS_H), (is_defined env ANDROID); simpl;
      split; try (by intros [l Hl%elem_of_nil]); try (by intros [??]).
    intros _. eexists. apply list_elem_of_here.
Qed.

Lemma signature_binding_witness :
  ({[ ANDROID := [Ident "1"] ]} : macro_table) !! "int" = None
  ∧ ({[ ANDROID := [Ident "1"] ]} : macro_table) !! SYS_pipe2 = None
  ∧ declared_parameters C17 SYS_pipe2_decl = Some Unspecified
  ∧ toks <$> preprocess {[ ANDROID := [Ident "1"] ]} = [SYS_pipe2_decl].
Proof.
  split_and!; [reflexivity | reflexivity | |].
  - exact (proj1 (proj2 (signature_binding C17 {[ ANDROID := [Ident "1"] ]} eq_refl eq_refl))).
  - exact (proj1 (proj2 (proj2 (signature_binding C17 {[ ANDROID := [Ident "1"] ]} eq_refl eq_refl)))).
Defined.

(** ** Platform exclusivity *)

(** C4, refuted as stated: a build that defines no platform macro gets
    no line from the header, so no platform's declarations are visible. *)
Lemma exactly_one_platform_counterexample :
  preprocess ∅ = []
  ∧ visible_platforms (preprocess ∅) = []
  ∧ ¬ (∀ env, exactly_one_platform_visible env).
Proof.
  split_and!; [reflexivity | reflexivity |].
  intros H. specialize (H ∅). discriminate H.
Qed.

(** C4, amended. No build makes two platforms' declarations visible: the
    Android declarations are visible exactly when [__ANDROID__] is
    defined and the include guard is not yet, and otherwise no
    declarations are visible. *)
Theorem at_most_one_platform_visible (env : macro_table) :
  visible_platforms (preprocess env)
  = (if negb (is_defined env KMP_PROCESS_SYS_H) && is_defined env ANDROID
     then [ANDROID] else [])
  ∧ length (visible_platforms (preprocess env)) ≤ 1.
Proof.
  rewrite preprocess_eq. unfold new_lines, start. simpl.
  destruct (_ && _); split; (reflexivity || (simpl; lia)).
Qed.

(** ** What the emitted lines depend on *)

(** C9, refuted as stated: two Android builds that agree on both tested
    macros, one of which defines [__SYS_pipe2] as a macro, get different
    lines, because the declaration is a text line and undergoes macro
    replacement. *)
Lemma determined_by_tested_macros_counterexample :
  agree_on ANDROID {[ ANDROID := [] ]}
                   {[ ANDROID := []; SYS_pipe2 := [Ident "pipe2"] ]}
  ∧ agree_on KMP_PROCESS_SYS_H {[ ANDROID := [] ]}
                               {[ ANDROID := []; SYS_pipe2 := [Ident "pipe2"] ]}
  ∧ toks <$> preprocess {[ ANDROID := [] ]}
    = [[Ident "int"; Ident "__SYS_pipe2"; Punct "("; Punct ")"; Punct ";"]]
  ∧ toks <$> preprocess {[ ANDROID := []; SYS_pipe2 := [Ident "pipe2"] ]}
    = [[Ident "int"; Ident "pipe2"; Punct "("; Punct ")"; Punct ";"]]
  ∧ ¬ determined_by_tested_macros.
Proof.
  split_and!; try (vm_compute; reflexivity).
  intros H.
  specialize (H {[ ANDROID := [] ]} {[ ANDROID := []; SYS_pipe2 := [Ident "pipe2"] ]}).
  assert (E : preprocess {[ ANDROID := [] ]}
              = preprocess {[ ANDROID := []; SYS_pipe2 := [Ident "pipe2"] ]})
    by (apply H; vm_compute; reflexivity).
  vm_compute in E. discriminate E.
Qed.

(** C9, amended. Two preprocessing runs in which neither identifier of
    the declaration line ([int], [__SYS_pipe2]) is defined as a macro,
    and which agree on whether [__ANDROID__] and [KMP_PROCESS_SYS_H] are
    defined, emit identical lines; no other macro of the build
    configuration has any influence. *)
Theorem determined_by_tested_macros_plain (env1 env2 : macro_table) :
  env1 !! "int" = None → env1 !! SYS_pipe2 = None →
  env2 !! "int" = None → env2 !! SYS_pipe2 = None →
  agree_on ANDROID env1 env2 → agree_on KMP_PROCESS_SYS_H env1 env2 →
  preprocess env1 = preprocess env2.
Proof.
  unfold agree_on. intros Hi1 Hp1 Hi2 Hp2 Ha Hg.
  rewrite !preprocess_plain by done. by rewrite Ha, Hg.
Qed.

Lemma determined_by_tested_macros_plain_witness :
  agree_on ANDROID {[ ANDROID := [] ]} {[ ANDROID := [Ident "1"]; "NDEBUG" := [] ]}
  ∧ agree_on KMP_PROCESS_SYS_H {[ ANDROID := [] ]} {[ ANDROID := [Ident "1"]; "NDEBUG" := [] ]}
  ∧ preprocess {[ ANDROID := [] ]}
    = preprocess {[ ANDROID := [Ident "1"]; "NDEBUG" := [] ]}.
Proof.
  split_and!; [reflexivity | reflexivity |].
  apply (determined_by_tested_macros_plain
           {[ ANDROID := [] ]} {[ ANDROID := [Ident "1"]; "NDEBUG" := [] ]});
    reflexivity.
Defined.

(** ** Frame: what an inclusion adds and what it leaves alone *)

(** C10, refuted as stated: where [__SYS_pipe2] is itself a macro, the
    line the header adds declares the macro's replacement, a name other
    than [__SYS_pipe2]. *)
Lemma introduces_only_counterexample :
  declared_names (preprocess {[ ANDROID := []; SYS_pipe2 := [Ident "pipe2"] ]})
  = ["pipe2"]
  ∧ ¬ introduces_only_guard_and_decl
        (start {[ ANDROID := []; SYS_pipe2 := [Ident "pipe2"] ]}).
Proof.
  split; [vm_compute; reflexivity|].
  intros (_ & _ & _ & _ & new & Hout & _ & Hall & _).
  rewrite include_first_android in Hout by reflexivity.
  simpl in Hout. subst new.
  apply Forall_cons_1 in Hall as [Hdecl _].
  vm_compute in Hdecl. discriminate Hdecl.
Qed.

(** C10, amended. Where neither identifier of the declaration line
    ([int], [__SYS_pipe2]) is defined as a macro, an inclusion of the
    header introduces at most two names: the macro [KMP_PROCESS_SYS_H],
    defined after every inclusion, and the function declaration
    [int __SYS_pipe2();], added only when [__ANDROID__] is defined;
    every other macro, the open conditionals and the lines emitted
    before are unchanged. *)
Theorem introduces_only_plain (st : pp_state) :
  macros st !! "int" = None → macros st !! SYS_pipe2 = None →
  introduces_only_guard_and_decl st.
Proof.
  intros Hi Hp. unfold introduces_only_guard_and_decl. split_and!.
  - intros m Hm. rewrite include_macros.
    destruct (is_defined _ _); [done|]. by rewrite lookup_insert_ne.
  - apply include_defines_guard.
  - intros Hg. rewrite include_macros.
    apply is_defined_false in Hg. rewrite Hg. apply lookup_insert_eq.
  - apply include_if_stack.
  - exists (new_lines st). split_and!.
    + apply include_output.
    + unfold new_lines. destruct (_ && _); simpl; lia.
    + unfold new_lines. destruct (_ && _); constructor; [|constructor].
      unfold emitted_decl. cbn [toks].
      rewrite expand_decl_plain; [done | by rewrite lookup_insert_ne ..].
    + unfold new_lines.
      destruct (is_defined _ KMP_PROCESS_SYS_H), (is_defined _ ANDROID); done.
Qed.

Lemma introduces_only_plain_witness :
  macros (start {[ ANDROID := [Ident "1"] ]}) !! "int" = None
  ∧ macros (start {[ ANDROID := [Ident "1"] ]}) !! SYS_pipe2 = None
  ∧ introduces_only_guard_and_decl (start {[ ANDROID := [Ident "1"] ]}).
Proof.
  split_and!; [reflexivity | reflexivity |].
  apply (introduces_only_plain (start {[ ANDROID := [Ident "1"] ]})); reflexivity.
Defined.

(** ** Further behaviour of the header *)

(** X1. Where [KMP_PROCESS_SYS_H] is already defined, by an earlier
    inclusion or by the build configuration, the inclusion is the
    identity on the whole preprocessor state: nothing is emitted, also
    on Android, and the guard keeps the replacement list it had. *)
Theorem include_guard_predefined (st : pp_state) :
  is_defined (macros st) KMP_PROCESS_SYS_H = true →
  kmp_process_sys_h st = st
  ∧ output (kmp_process_sys_h st) = output st
  ∧ macros (kmp_process_sys_h st) !! KMP_PROCESS_SYS_H = macros st !! KMP_PROCESS_SYS_H.
Proof. intros Hg. by rewrite include_guarded. Qed.

Lemma include_guard_predefined_witness :
  is_defined (macros (start {[ ANDROID := [Ident "1"]; KMP_PROCESS_SYS_H := [Ident "1"] ]}))
             KMP_PROCESS_SYS_H = true
  ∧ kmp_process_sys_h (start {[ ANDROID := [Ident "1"]; KMP_PROCESS_SYS_H := [Ident "1"] ]})
    = start {[ ANDROID := [Ident "1"]; KMP_PROCESS_SYS_H := [Ident "1"] ]}.
Proof.
  split; [reflexivity|].
  apply (include_guard_predefined
           (start {[ ANDROID := [Ident "1"]; KMP_PROCESS_SYS_H := [Ident "1"] ]})).
  reflexivity.
Defined.

Lemma defines_keeps_defined (ds : list (string * list token)) : ∀ (st : pp_state) (m : string),
  is_defined (macros st) m = true → is_defined (macros (defines ds st)) m = true.
Proof.
  unfold defines. induction ds as [|[k b] ds IH]; intros st m Hm; [done|].
  simpl. apply IH. unfold define. simpl.
  destruct (decide (k = m)) as [->|Hne].
  - apply is_defined_insert_eq.
  - by rewrite is_defined_insert_ne.
Qed.

Lemma defines_output (ds : list (string * list token)) : ∀ (st : pp_state),
  output (defines ds st) = output st.
Proof.
  unfold defines. induction ds as [|[k b] ds IH]; intros st; [done|].
  simpl. by rewrite IH.
Qed.

(** X2. Once the header has been included, no run of later [#define]
    lines brings it back: a further inclusion is the identity, so a
    translation unit that defines [__ANDROID__] only after its first
    inclusion of the header never gets the declaration. *)
Theorem include_after_defines (st : pp_state) (ds : list (string * list token)) :
  kmp_process_sys_h (defines ds (kmp_process_sys_h st))
  = defines ds (kmp_process_sys_h st)
  ∧ output (kmp_process_sys_h (defines ds (kmp_process_sys_h st)))
    = output (kmp_process_sys_h st).
Proof.
  assert (E : kmp_process_sys_h (defines ds (kmp_process_sys_h st))
              = defines ds (kmp_process_sys_h st)).
  { apply include_guarded, defines_keeps_defined, include_defines_guard. }
  split; [exact E|]. rewrite E. apply defines_output.
Qed.

(** A build that learns of Android too late: nothing is declared. *)
Example android_defined_after_inclusion :
  output (kmp_process_sys_h (defines [(ANDROID, [Ident "1"])] (kmp_process_sys_h (start ∅))))
  = [].
Proof. vm_compute. reflexivity. Qed.

(** X3. In a build where neither [int] nor [__SYS_pipe2] names a macro,
    the header declares [__SYS_pipe2], once, exactly when [__ANDROID__]
    is defined and [KMP_PROCESS_SYS_H] is not; the replacement list of
    [__ANDROID__] plays no part ([#ifdef] tests definedness only). In
    every other such build it declares nothing and the name does not
    occur. *)
Theorem declared_iff_android_first (env : macro_table) :
  env !! "int" = None → env !! SYS_pipe2 = None →
  declared_names (preprocess env)
  = (if negb (is_defined env KMP_PROCESS_SYS_H) && is_defined env ANDROID
     then [SYS_pipe2] else [])
  ∧ mentions SYS_pipe2 (preprocess env)
    = negb (is_defined env KMP_PROCESS_SYS_H) && is_defined env ANDROID.
Proof.
  intros Hi Hp. rewrite preprocess_plain by done. unfold lines_of.
  destruct (_ && _); split; reflexivity.
Qed.

Lemma declared_iff_android_first_witness :
  ({[ ANDROID := [Ident "0"] ]} : macro_table) !! "int" = None
  ∧ ({[ ANDROID := [Ident "0"] ]} : macro_table) !! SYS_pipe2 = None
  ∧ declared_names (preprocess {[ ANDROID := [Ident "0"] ]}) = [SYS_pipe2].
Proof.
  split_and!; [reflexivity | reflexivity |].
  exact (proj1 (declared_iff_android_first {[ ANDROID := [Ident "0"] ]} eq_refl eq_refl)).
Defined.

(** X4. Whatever macros the build defines, an inclusion never removes
    or alters a line emitted before it, leaves the open conditionals as
    they were, changes no macro other than [KMP_PROCESS_SYS_H], never
    overwrites a definition the guard already has, and adds exactly one
    line when [__ANDROID__] is defined and the guard is not, and no
    line otherwise. *)
Theorem include_frame (st : pp_state) :
  (∀ m, m ≠ KMP_PROCESS_SYS_H →
        macros (kmp_process_sys_h st) !! m = macros st !! m)
  ∧ macros (kmp_process_sys_h st) !! KMP_PROCESS_SYS_H
    = Some (default [] (macros st !! KMP_PROCESS_SYS_H))
  ∧ if_stack (kmp_process_sys_h st) = if_stack st
  ∧ ∃ new, output (kmp_process_sys_h st) = output st ++ new
      ∧ length new
        = (if negb (is_defined (macros st) KMP_PROCESS_SYS_H)
              && is_defined (macros st) ANDROID
           then 1 else 0).
Proof.
  split_and!.
  - intros m Hm. rewrite include_macros.
    destruct (is_defined _ _); [done|]. by rewrite lookup_insert_ne.
  - rewrite include_macros. unfold is_defined.
    destruct (macros st !! KMP_PROCESS_SYS_H) as [b|] eqn:Hg; simpl.
    + exact Hg.
    + apply lookup_insert_eq.
  - apply include_if_stack.
  - exists (new_lines st). split.
    + apply include_output.
    + unfold new_lines. by destruct (_ && _).
Qed.
